(** * Password validation by a chain of decorators

    A shallow embedding of [main.cpp]: the abstract class
    [PasswordValidator], the base rule [LengthValidator], the forwarding
    base class [PasswordValidatorDecorator] and its three subclasses
    [DigitPasswordValidator], [CasePasswordValidator] and
    [SymbolPasswordValidator], followed by the properties of the
    validation result.

    Conventions of the embedding.
    - A [std::string_view] is a [string]: a finite sequence of 8-bit
      characters ([ascii]).
    - [unsigned int] is 32 bits wide; the conversion of a constructor
      argument to it is written out in [to_unsigned_int].
    - [std::string::npos] is [None]: [find_first_of] returns [option nat].
    - [islower] and [isupper] are those of the "C" locale, which is in
      force because the program never calls [setlocale]; a character
      above 127 is no letter there.
    - An owning pointer [std::unique_ptr<PasswordValidator>] is
      identified with the object it owns; the null pointer is not a
      validator.
    - Every [Validate] runs in the observation monad [Obs]: next to its
      boolean it yields the list of library calls it made on the
      password, in the order of evaluation.  The list is ghost data, it
      never influences a result; it is what evaluation-order properties
      are stated on. *)

From Stdlib Require Import Bool Arith ZArith Lia List Ascii String Permutation.
Import ListNotations.
Local Open Scope list_scope.

(* ================================================================= *)
(** ** Host types *)

Definition string_view : Type := string.
Bind Scope string_scope with string_view.

Definition UINT_WIDTH : Z := 32.
Definition UINT_MAX : Z := 2 ^ UINT_WIDTH - 1.

(** Conversion of an integer to [unsigned int]: reduction modulo 2^32. *)
Definition to_unsigned_int (z : Z) : Z := z mod 2 ^ UINT_WIDTH.

(* ================================================================= *)
(** ** Observed library calls *)

Inductive Call : Type :=
| length_call                          (* password.length() *)
| find_first_of_call (chars : string)  (* password.find_first_of(chars) *)
| islower_call (c : ascii)             (* islower(password[i]) *)
| isupper_call (c : ascii).            (* isupper(password[i]) *)

(** A computation yields its value and the calls it made, oldest first. *)
Definition Obs (A : Type) : Type := (A * list Call)%type.

Definition value {A : Type} (m : Obs A) : A := fst m.
Definition calls {A : Type} (m : Obs A) : list Call := snd m.

Definition ret {A : Type} (a : A) : Obs A := (a, []).

Definition bind {A B : Type} (m : Obs A) (k : A -> Obs B) : Obs B :=
  let r := k (value m) in (value r, calls m ++ calls r).

(** [call e r]: the library call [e] is made and returns [r]. *)
Definition call {A : Type} (e : Call) (r : A) : Obs A := (r, [e]).

Notation "x <- m ;; k" := (bind m (fun x => k))
  (at level 61, m at next level, right associativity).

(* ================================================================= *)
(** ** The library functions the program calls *)

(** [member c chars]: [c] is one of the characters of [chars]. *)
Fixpoint member (c : ascii) (chars : string) : bool :=
  match chars with
  | EmptyString => false
  | String d rest => Ascii.eqb c d || member c rest
  end.

(** [std::string_view::find_first_of(chars)], searching from [pos]
    onwards in the remaining characters [s]: the position of the first
    character that is one of [chars], [None] (npos) when there is none. *)
Fixpoint find_first_of_from (s : string_view) (chars : string) (pos : nat)
  : option nat :=
  match s with
  | EmptyString => None
  | String c rest =>
      if member c chars then Some pos
      else find_first_of_from rest chars (S pos)
  end.

Definition find_first_of (s : string_view) (chars : string) : option nat :=
  find_first_of_from s chars 0.

Definition npos : option nat := None.

(** [r != std::string::npos] *)
Definition not_npos (r : option nat) : bool :=
  match r with
  | Some _ => true
  | None => false
  end.

(** [password[i]].  The program reads only below [password.length()]
    (lemma [subscript_in_range]); elsewhere the C++ read is undefined
    and the embedding yields the NUL character. *)
Definition subscript (password : string_view) (i : nat) : ascii :=
  match String.get i password with
  | Some c => c
  | None => Ascii.zero
  end.

(** [islower] and [isupper] of the "C" locale: true for the 26 lowercase
    (uppercase) letters of the basic character set and for nothing else. *)
Definition islower (c : ascii) : bool := member c "abcdefghijklmnopqrstuvwxyz".
Definition isupper (c : ascii) : bool := member c "ABCDEFGHIJKLMNOPQRSTUVWXYZ".

(* ================================================================= *)
(** ** The validators *)

(** [class PasswordValidator]: one pure virtual method. *)
Record PasswordValidator : Type := { Validate : string_view -> Obs bool }.

(** The boolean a caller of [validator->Validate(password)] receives. *)
Definition accepts (validator : PasswordValidator) (password : string_view)
  : bool :=
  value (Validate validator password).

(** The calls [validator->Validate(password)] makes. *)
Definition observed (validator : PasswordValidator) (password : string_view)
  : list Call :=
  calls (Validate validator password).

(** [class LengthValidator]: [length_] holds the constructor argument,
    converted to [unsigned int];
    [Validate] is [password.length() >= length_]. *)
Definition LengthValidator (min_length : Z) : PasswordValidator :=
  let length_ := to_unsigned_int min_length in
  {| Validate := fun password =>
       n <- call length_call (String.length password) ;;
       ret (Z.of_nat n >=? length_)%Z |}.

(** [class PasswordValidatorDecorator]: [inner_] holds the wrapped
    validator; [Validate] forwards to it. *)
Definition PasswordValidatorDecorator (validator : PasswordValidator)
  : PasswordValidator :=
  let inner_ := validator in
  {| Validate := fun password => Validate inner_ password |}.

(** [class DigitPasswordValidator]. *)
Definition DigitPasswordValidator (validator : PasswordValidator)
  : PasswordValidator :=
  let base := PasswordValidatorDecorator validator in
  {| Validate := fun password =>
       ok <- Validate base password ;;
       if negb ok then ret false
       else
         pos <- call (find_first_of_call "0123456789")
                     (find_first_of password "0123456789") ;;
         ret (not_npos pos) |}.

(** The [for] loop of [CasePasswordValidator::Validate], entered with
    the current values of [i], [has_lower] and [has_upper]; it yields
    their values at the exit.  [fuel] bounds the number of iterations;
    lemma [for_loop_exit] shows that with [fuel = password.length()] the
    loop leaves through its own condition. *)
Fixpoint for_loop (fuel : nat) (password : string_view)
    (i : nat) (has_lower has_upper : bool) : Obs (nat * bool * bool) :=
  n <- call length_call (String.length password) ;;
  if (i <? n) && negb (has_upper && has_lower) then
    match fuel with
    | O => ret (i, has_lower, has_upper)
    | S fuel' =>
        l <- call (islower_call (subscript password i))
                  (islower (subscript password i)) ;;
        if l then for_loop fuel' password (S i) true has_upper
        else
          u <- call (isupper_call (subscript password i))
                    (isupper (subscript password i)) ;;
          if u then for_loop fuel' password (S i) has_lower true
          else for_loop fuel' password (S i) has_lower has_upper
    end
  else ret (i, has_lower, has_upper).

(** [class CasePasswordValidator]. *)
Definition CasePasswordValidator (validator : PasswordValidator)
  : PasswordValidator :=
  let base := PasswordValidatorDecorator validator in
  {| Validate := fun password =>
       ok <- Validate base password ;;
       if negb ok then ret false
       else
         st <- for_loop (String.length password) password 0 false false ;;
         let '(_, has_lower, has_upper) := st in
         ret (has_lower && has_upper) |}.

(** [class SymbolPasswordValidator]. *)
Definition SymbolPasswordValidator (validator : PasswordValidator)
  : PasswordValidator :=
  let base := PasswordValidatorDecorator validator in
  {| Validate := fun password =>
       ok <- Validate base password ;;
       if negb ok then ret false
       else
         pos <- call (find_first_of_call "!@#$%^&*(){}[]?<>")
                     (find_first_of password "!@#$%^&*(){}[]?<>") ;;
         ret (not_npos pos) |}.

(* ================================================================= *)
(** ** Chains of decorators *)

(** The four classes that wrap a validator. *)
Inductive Decorator : Type :=
| Plain    (* PasswordValidatorDecorator *)
| Digit    (* DigitPasswordValidator *)
| Case     (* CasePasswordValidator *)
| Symbol.  (* SymbolPasswordValidator *)

Definition decorate (d : Decorator) (validator : PasswordValidator)
  : PasswordValidator :=
  match d with
  | Plain => PasswordValidatorDecorator validator
  | Digit => DigitPasswordValidator validator
  | Case => CasePasswordValidator validator
  | Symbol => SymbolPasswordValidator validator
  end.

(** [chain [d1; ...; dn] base] is [d1(...(dn(base)))], as [main] nests
    its [std::make_unique] calls: the head of the list is the outermost
    decorator. *)
Definition chain (ds : list Decorator) (base : PasswordValidator)
  : PasswordValidator :=
  fold_right decorate base ds.

(** A decorator of one of the three checking classes. *)
Definition checking (d : Decorator) : bool :=
  match d with
  | Plain => false
  | Digit | Case | Symbol => true
  end.

(** The calls a decorator's own check makes on [password], after its
    inner validator has accepted. *)
Definition own_calls (d : Decorator) (password : string_view) : list Call :=
  match d with
  | Plain => []
  | Digit => [find_first_of_call "0123456789"]
  | Case =>
      calls (for_loop (String.length password) password 0 false false)
  | Symbol => [find_first_of_call "!@#$%^&*(){}[]?<>"]
  end.

(** The two flags the loop of [CasePasswordValidator::Validate] leaves
    behind on [password]. *)
Definition case_flags (password : string_view) : bool * bool :=
  let '(_, has_lower, has_upper) :=
    value (for_loop (String.length password) password 0 false false) in
  (has_lower, has_upper).

(** The loop read as a recursion on the characters not yet visited: the
    flags at the exit when [l] is what remains of the password.  It is
    the reference [for_loop] is compared with (lemma [for_loop_scan]). *)
Fixpoint scan (l : list ascii) (has_lower has_upper : bool) : bool * bool :=
  match l with
  | [] => (has_lower, has_upper)
  | c :: rest =>
      if has_upper && has_lower then (has_lower, has_upper)
      else if islower c then scan rest true has_upper
      else if isupper c then scan rest has_lower true
      else scan rest has_lower has_upper
  end.


(* ================================================================= *)
(** ** The vocabulary of the specification

    These definitions follow the words of the specification, not the
    code: character classes are given by ASCII ranges and by the listed
    set of symbols, and a password meets a class when one of its
    characters lies in it. *)

Module Spec.

(** The characters of a password, first to last. *)
Definition chars_of (p : string_view) : list ascii := list_ascii_of_string p.

(** [lo <= c <= hi] on character codes. *)
Definition in_range (lo hi c : ascii) : bool :=
  (nat_of_ascii lo <=? nat_of_ascii c) && (nat_of_ascii c <=? nat_of_ascii hi).

Definition digit (c : ascii) : bool := in_range "0" "9" c.
Definition lowercase (c : ascii) : bool := in_range "a" "z" c.
Definition uppercase (c : ascii) : bool := in_range "A" "Z" c.

(** The 17 symbols, as listed. *)
Definition symbols : list ascii :=
  ["!"; "@"; "#"; "$"; "%"; "^"; "&"; "*"; "("; ")"; "{"; "}"; "["; "]";
   "?"; "<"; ">"]%char.

Definition symbol (c : ascii) : bool := existsb (Ascii.eqb c) symbols.

(** [p] contains at least one character of the class [P]. *)
Definition contains (P : ascii -> bool) (p : string_view) : Prop :=
  exists c, In c (chars_of p) /\ P c = true.

Definition containsb (P : ascii -> bool) (p : string_view) : bool :=
  existsb P (chars_of p).

(** The predicate a decorator adds to its inner validator. *)
Definition localCheck (d : Decorator) (p : string_view) : bool :=
  match d with
  | Plain => true
  | Digit => containsb digit p
  | Case => containsb lowercase p && containsb uppercase p
  | Symbol => containsb symbol p
  end.

End Spec.

(* ================================================================= *)
(** ** The calls of the loop, and [main] *)

(** The calls of the loop read as a recursion on the characters not yet
    visited: what [for_loop] makes when [l] is what remains of the
    password (lemma [calls_for_loop]).  Every evaluation of the loop
    condition calls [password.length()]; every iteration calls
    [islower], and [isupper] after it when [islower] was false. *)
Fixpoint scan_calls (l : list ascii) (has_lower has_upper : bool)
  : list Call :=
  length_call ::
  match l with
  | [] => []
  | c :: rest =>
      if has_upper && has_lower then []
      else
        islower_call c ::
        (if islower c then scan_calls rest true has_upper
         else
           isupper_call c ::
           (if isupper c then scan_calls rest has_lower true
            else scan_calls rest has_lower has_upper))
  end.

(** [assert(e)]: the program goes on when [e] holds and is aborted
    otherwise ([None]). *)
Definition assert (e : bool) : option unit :=
  if e then Some tt else None.

(** Sequencing of statements that may abort. *)
Definition and_then {A : Type} (s : option unit) (k : option A) : option A :=
  match s with
  | Some _ => k
  | None => None
  end.

Infix ">>" := and_then (at level 62, right associativity).

(** [int main()]: four blocks, each building a validator and asserting
    on two passwords; falling off the end returns 0. *)
Definition main : option Z :=
  (let validator := LengthValidator 8 in
   assert (accepts validator "abc123!@#") >>
   assert (negb (accepts validator "abc123"))) >>
  (let validator := DigitPasswordValidator (LengthValidator 8) in
   assert (accepts validator "abc123!@#") >>
   assert (negb (accepts validator "abcde!@#"))) >>
  (let validator :=
     CasePasswordValidator (DigitPasswordValidator (LengthValidator 8)) in
   assert (accepts validator "Abc123!@#") >>
   assert (negb (accepts validator "abc123!@#"))) >>
  (let validator :=
     SymbolPasswordValidator
       (CasePasswordValidator (DigitPasswordValidator (LengthValidator 8))) in
   assert (accepts validator "Abc123!@#") >>
   assert (negb (accepts validator "Abc123567"))) >>
  Some 0%Z.

(* ================================================================= *)
(** ** The observation monad *)

Lemma value_ret {A : Type} (a : A) : value (ret a) = a.
Proof. reflexivity. Qed.

Lemma calls_ret {A : Type} (a : A) : calls (ret a) = [].
Proof. reflexivity. Qed.

Lemma value_call {A : Type} (e : Call) (r : A) : value (call e r) = r.
Proof. reflexivity. Qed.

Lemma calls_call {A : Type} (e : Call) (r : A) : calls (call e r) = [e].
Proof. reflexivity. Qed.

Lemma value_bind {A B : Type} (m : Obs A) (k : A -> Obs B) :
  value (bind m k) = value (k (value m)).
Proof. reflexivity. Qed.

Lemma calls_bind {A B : Type} (m : Obs A) (k : A -> Obs B) :
  calls (bind m k) = calls m ++ calls (k (value m)).
Proof. reflexivity. Qed.

(** A computation is its value together with its calls. *)
Lemma obs_eta {A : Type} (m : Obs A) : m = (value m, calls m).
Proof. destruct m; reflexivity. Qed.

Lemma bind_ret_l {A B : Type} (a : A) (k : A -> Obs B) : bind (ret a) k = k a.
Proof. unfold bind; simpl. symmetry; apply obs_eta. Qed.

Lemma bind_ret_r {A : Type} (m : Obs A) : bind m ret = m.
Proof.
  unfold bind; simpl. rewrite app_nil_r. symmetry; apply obs_eta.
Qed.

Lemma bind_assoc {A B C : Type} (m : Obs A) (k : A -> Obs B) (h : B -> Obs C) :
  bind (bind m k) h = bind m (fun a => bind (k a) h).
Proof. unfold bind; simpl. now rewrite app_assoc. Qed.

(* ================================================================= *)
(** ** Characters and strings *)

Lemma member_In (c : ascii) (s : string) :
  member c s = true <-> In c (Spec.chars_of s).
Proof.
  induction s as [| d s IH]; simpl.
  - split; [discriminate | tauto].
  - rewrite orb_true_iff, IH, Ascii.eqb_eq. split; intros [H | H]; auto.
Qed.

Lemma member_existsb (c : ascii) (s : string) :
  member c s = existsb (Ascii.eqb c) (Spec.chars_of s).
Proof. induction s as [| d s IH]; simpl; [reflexivity | now rewrite IH]. Qed.

(** Case analysis on the eight bits of a character. *)
Ltac by_cases_on_char c :=
  destruct c as [[] [] [] [] [] [] [] []]; reflexivity.

Lemma islower_lowercase (c : ascii) : islower c = Spec.lowercase c.
Proof. by_cases_on_char c. Qed.

Lemma isupper_uppercase (c : ascii) : isupper c = Spec.uppercase c.
Proof. by_cases_on_char c. Qed.

Lemma member_digits (c : ascii) : member c "0123456789" = Spec.digit c.
Proof. by_cases_on_char c. Qed.

Lemma member_symbols (c : ascii) :
  member c "!@#$%^&*(){}[]?<>" = Spec.symbol c.
Proof. apply member_existsb. Qed.

(** No character is both a lowercase and an uppercase letter. *)
Lemma islower_not_isupper (c : ascii) : islower c = true -> isupper c = false.
Proof.
  destruct c as [[] [] [] [] [] [] [] []]; cbv; intro H;
    first [reflexivity | discriminate H].
Qed.

Lemma length_chars_of (p : string) :
  List.length (Spec.chars_of p) = String.length p.
Proof. induction p as [| c p IH]; simpl; [reflexivity | now rewrite IH]. Qed.

Lemma get_chars_of (p : string) (i : nat) :
  String.get i p = nth_error (Spec.chars_of p) i.
Proof.
  revert i; induction p as [| c p IH]; intros [| i]; simpl; auto.
Qed.

Lemma chars_of_app (p q : string) :
  Spec.chars_of (p ++ q)%string = Spec.chars_of p ++ Spec.chars_of q.
Proof. induction p as [| c p IH]; simpl; [reflexivity | now rewrite IH]. Qed.

Lemma skipn_nth_error {A : Type} (l : list A) (i : nat) (x : A) :
  nth_error l i = Some x -> skipn i l = x :: skipn (S i) l.
Proof.
  revert i; induction l as [| y l IH]; intros [| i] H; simpl in *;
    try discriminate.
  - now inversion H.
  - now apply IH.
Qed.

(** Below [password.length()] the read [password[i]] is a character of
    the password: the one at position [i]. *)
Lemma subscript_in_range (password : string_view) (i : nat) :
  i < String.length password ->
  String.get i password = Some (subscript password i).
Proof.
  intros H. unfold subscript.
  destruct (String.get i password) as [c |] eqn:E; [reflexivity |].
  rewrite get_chars_of in E. apply nth_error_None in E.
  rewrite length_chars_of in E. lia.
Qed.

Lemma skipn_subscript (password : string_view) (i : nat) :
  i < String.length password ->
  skipn i (Spec.chars_of password)
  = subscript password i :: skipn (S i) (Spec.chars_of password).
Proof.
  intros H. apply skipn_nth_error.
  rewrite <- get_chars_of. now apply subscript_in_range.
Qed.

(* ----------------------------------------------------------------- *)
(** *** [find_first_of] *)

(** The search finds a position exactly when some character of the
    password is one of [chars]. *)
Lemma not_npos_find_first_of_from (s : string_view) (chars : string) (pos : nat) :
  not_npos (find_first_of_from s chars pos)
  = Spec.containsb (fun c => member c chars) s.
Proof.
  unfold Spec.containsb.
  revert pos; induction s as [| c s IH]; intros pos; simpl; [reflexivity |].
  destruct (member c chars); simpl; [reflexivity | apply IH].
Qed.

Lemma find_first_of_from_ge (s : string_view) (chars : string) (pos r : nat) :
  find_first_of_from s chars pos = Some r ->
  pos <= r < pos + String.length s.
Proof.
  revert pos; induction s as [| c s IH]; intros pos; simpl; [discriminate |].
  destruct (member c chars).
  - intros [= <-]. lia.
  - intros H. apply IH in H. lia.
Qed.

Lemma not_npos_false (r : option nat) : not_npos r = false <-> r = npos.
Proof. destruct r; simpl; unfold npos; split; congruence. Qed.

(** The position found holds a character of [chars], and no earlier
    position does: the model agrees with the library's contract. *)
Lemma find_first_of_from_first (s : string_view) (chars : string) (pos r : nat) :
  find_first_of_from s chars pos = Some r ->
  member (subscript s (r - pos)) chars = true /\
  forall j, j < r - pos -> member (subscript s j) chars = false.
Proof.
  revert pos; induction s as [| c s IH]; intros pos; simpl; [discriminate |].
  destruct (member c chars) eqn:E.
  - intros [= <-]. rewrite Nat.sub_diag. split; [exact E | intros j Hj; lia].
  - intros H. pose proof (find_first_of_from_ge _ _ _ _ H) as Hr.
    destruct (IH _ H) as [Hm Hfirst].
    replace (r - pos) with (S (r - S pos)) by lia. split.
    + exact Hm.
    + intros [| j] Hj; [exact E |]. apply Hfirst. lia.
Qed.

Lemma find_first_of_first (s : string_view) (chars : string) (r : nat) :
  find_first_of s chars = Some r ->
  r < String.length s /\
  member (subscript s r) chars = true /\
  forall j, j < r -> member (subscript s j) chars = false.
Proof.
  unfold find_first_of. intros H.
  pose proof (find_first_of_from_ge _ _ _ _ H) as Hr.
  pose proof (find_first_of_from_first _ _ _ _ H) as Hf.
  rewrite Nat.sub_0_r in Hf. split; [lia | exact Hf].
Qed.

(* ----------------------------------------------------------------- *)
(** *** The loop of [CasePasswordValidator::Validate] *)

(** One unfolding of the loop, on values. *)
Lemma value_for_loop (fuel : nat) (password : string_view) (i : nat)
    (has_lower has_upper : bool) :
  value (for_loop fuel password i has_lower has_upper)
  = if (i <? String.length password) && negb (has_upper && has_lower) then
      match fuel with
      | O => (i, has_lower, has_upper)
      | S fuel' =>
          if islower (subscript password i)
          then value (for_loop fuel' password (S i) true has_upper)
          else if isupper (subscript password i)
          then value (for_loop fuel' password (S i) has_lower true)
          else value (for_loop fuel' password (S i) has_lower has_upper)
      end
    else (i, has_lower, has_upper).
Proof.
  destruct fuel as [| fuel']; cbn [for_loop]; rewrite value_bind, value_call.
  - now destruct (_ && _).
  - destruct (_ && _); [| reflexivity].
    rewrite value_bind, value_call.
    destruct (islower _); [reflexivity |].
    rewrite value_bind, value_call.
    now destruct (isupper _).
Qed.

(** With as much fuel as characters remain, the loop leaves through its
    condition: at the exit [i < password.length() && !(has_upper &&
    has_lower)] is false. *)
Lemma for_loop_exit (fuel : nat) (password : string_view) (i : nat)
    (has_lower has_upper : bool) :
  String.length password - i <= fuel ->
  let '(i', has_lower', has_upper') :=
    value (for_loop fuel password i has_lower has_upper) in
  (i' <? String.length password) && negb (has_upper' && has_lower') = false.
Proof.
  revert i has_lower has_upper.
  induction fuel as [| fuel' IH]; intros i hl hu Hfuel;
    rewrite value_for_loop;
    destruct ((i <? String.length password) && negb (hu && hl)) eqn:G;
    try exact G.
  - apply andb_true_iff in G. destruct G as [G _].
    apply Nat.ltb_lt in G. lia.
  - assert (Hnext : String.length password - S i <= fuel') by lia.
    destruct (islower _); [| destruct (isupper _)]; now apply IH.
Qed.

(** The loop computes [scan] of the characters from [i] onwards. *)
Lemma for_loop_scan (fuel : nat) (password : string_view) (i : nat)
    (has_lower has_upper : bool) :
  String.length password - i <= fuel ->
  let '(_, has_lower', has_upper') :=
    value (for_loop fuel password i has_lower has_upper) in
  (has_lower', has_upper')
  = scan (skipn i (Spec.chars_of password)) has_lower has_upper.
Proof.
  revert i has_lower has_upper.
  induction fuel as [| fuel' IH]; intros i hl hu Hfuel;
    rewrite value_for_loop;
    destruct (i <? String.length password) eqn:L; simpl.
  - apply Nat.ltb_lt in L. lia.
  - apply Nat.ltb_ge in L.
    rewrite skipn_all2 by (rewrite length_chars_of; exact L). reflexivity.
  - apply Nat.ltb_lt in L. rewrite (skipn_subscript _ _ L). simpl.
    assert (Hnext : String.length password - S i <= fuel') by lia.
    destruct (hu && hl); simpl; [reflexivity |].
    destruct (islower _); [| destruct (isupper _)]; now apply IH.
  - apply Nat.ltb_ge in L.
    rewrite skipn_all2 by (rewrite length_chars_of; exact L). reflexivity.
Qed.

Lemma case_flags_scan (password : string_view) :
  case_flags password = scan (Spec.chars_of password) false false.
Proof.
  unfold case_flags.
  pose proof (for_loop_scan (String.length password) password 0 false false)
    as H.
  destruct (value _) as [[i' hl'] hu']. apply H. lia.
Qed.

(** Both flags are up exactly when a lowercase and an uppercase letter
    were already seen or are still to come. *)
Lemma scan_both (l : list ascii) (has_lower has_upper : bool) :
  fst (scan l has_lower has_upper) && snd (scan l has_lower has_upper)
  = (has_lower || existsb islower l) && (has_upper || existsb isupper l).
Proof.
  revert has_lower has_upper.
  induction l as [| c l IH]; intros hl hu; simpl.
  - now rewrite !orb_false_r.
  - destruct (hu && hl) eqn:B.
    + apply andb_true_iff in B. destruct B as [-> ->]. reflexivity.
    + destruct (islower c) eqn:Lc.
      * rewrite IH, (islower_not_isupper _ Lc). now rewrite orb_true_r.
      * destruct (isupper c) eqn:Uc; rewrite IH; simpl;
          now rewrite ?orb_true_r.
Qed.

(** A character that is no letter leaves [scan] as it is without it. *)
Lemma scan_skip (l1 l2 : list ascii) (c : ascii) (has_lower has_upper : bool) :
  islower c = false -> isupper c = false ->
  scan (l1 ++ c :: l2) has_lower has_upper
  = scan (l1 ++ l2) has_lower has_upper.
Proof.
  intros Lc Uc. revert has_lower has_upper.
  induction l1 as [| d l1 IH]; intros hl hu; simpl.
  - rewrite Lc, Uc. destruct (hu && hl) eqn:B; [| reflexivity].
    apply andb_true_iff in B. destruct B as [-> ->].
    destruct l2; reflexivity.
  - now rewrite !IH.
Qed.

(* ================================================================= *)
(** ** The decorators, one by one *)

Lemma existsb_pointwise {A : Type} (f g : A -> bool) (l : list A) :
  (forall a, f a = g a) -> existsb f l = existsb g l.
Proof.
  intros E. induction l as [| a l IH]; simpl; [reflexivity |].
  now rewrite E, IH.
Qed.

Lemma containsb_contains (P : ascii -> bool) (p : string_view) :
  Spec.containsb P p = true <-> Spec.contains P p.
Proof. apply existsb_exists. Qed.

(** The check [DigitPasswordValidator] adds. *)
Lemma digit_check (password : string_view) :
  not_npos (find_first_of password "0123456789")
  = Spec.containsb Spec.digit password.
Proof.
  unfold find_first_of. rewrite not_npos_find_first_of_from.
  apply existsb_pointwise, member_digits.
Qed.

(** The check [SymbolPasswordValidator] adds. *)
Lemma symbol_check (password : string_view) :
  not_npos (find_first_of password "!@#$%^&*(){}[]?<>")
  = Spec.containsb Spec.symbol password.
Proof.
  unfold find_first_of. rewrite not_npos_find_first_of_from.
  apply existsb_pointwise, member_symbols.
Qed.

(** The check [CasePasswordValidator] adds: the conjunction of the two
    flags at the exit of the loop. *)
Lemma case_check (password : string_view) :
  fst (case_flags password) && snd (case_flags password)
  = Spec.containsb Spec.lowercase password
    && Spec.containsb Spec.uppercase password.
Proof.
  rewrite case_flags_scan, scan_both. simpl. unfold Spec.containsb.
  now rewrite (existsb_pointwise _ _ _ islower_lowercase),
              (existsb_pointwise _ _ _ isupper_uppercase).
Qed.

Lemma accepts_Plain (validator : PasswordValidator) (password : string_view) :
  accepts (PasswordValidatorDecorator validator) password
  = accepts validator password.
Proof. reflexivity. Qed.

Lemma accepts_Digit (validator : PasswordValidator) (password : string_view) :
  accepts (DigitPasswordValidator validator) password
  = accepts validator password && Spec.containsb Spec.digit password.
Proof.
  unfold accepts. cbn [Validate DigitPasswordValidator PasswordValidatorDecorator].
  rewrite value_bind. destruct (value (Validate validator password)); simpl.
  - apply digit_check.
  - reflexivity.
Qed.

Lemma accepts_Symbol (validator : PasswordValidator) (password : string_view) :
  accepts (SymbolPasswordValidator validator) password
  = accepts validator password && Spec.containsb Spec.symbol password.
Proof.
  unfold accepts. cbn [Validate SymbolPasswordValidator PasswordValidatorDecorator].
  rewrite value_bind. destruct (value (Validate validator password)); simpl.
  - apply symbol_check.
  - reflexivity.
Qed.

Lemma accepts_Case (validator : PasswordValidator) (password : string_view) :
  accepts (CasePasswordValidator validator) password
  = accepts validator password
    && (Spec.containsb Spec.lowercase password
        && Spec.containsb Spec.uppercase password).
Proof.
  unfold accepts. cbn [Validate CasePasswordValidator PasswordValidatorDecorator].
  rewrite value_bind. destruct (value (Validate validator password)); simpl.
  - rewrite <- case_check. unfold case_flags.
    destruct (for_loop _ _ _ _ _) as [[[i' hl'] hu'] log]. reflexivity.
  - reflexivity.
Qed.

(** Every decorator returns the conjunction of its inner validator's
    answer and its own predicate. *)
Lemma accepts_decorate (d : Decorator) (validator : PasswordValidator)
    (password : string_view) :
  accepts (decorate d validator) password
  = accepts validator password && Spec.localCheck d password.
Proof.
  destruct d; simpl.
  - rewrite accepts_Plain. now rewrite andb_true_r.
  - apply accepts_Digit.
  - apply accepts_Case.
  - apply accepts_Symbol.
Qed.

(** Every decorator first runs its inner validator, and runs its own
    check only after the inner validator has accepted. *)
Lemma observed_decorate (d : Decorator) (validator : PasswordValidator)
    (password : string_view) :
  observed (decorate d validator) password
  = observed validator password
    ++ (if accepts validator password then own_calls d password else []).
Proof.
  unfold observed, accepts.
  destruct d; cbn [decorate own_calls Validate PasswordValidatorDecorator
                   DigitPasswordValidator CasePasswordValidator
                   SymbolPasswordValidator].
  - now destruct (value _); rewrite app_nil_r.
  - rewrite calls_bind. now destruct (value (Validate validator password)).
  - rewrite calls_bind. destruct (value (Validate validator password));
      cbn [negb]; [| reflexivity].
    rewrite calls_bind.
    destruct (value (for_loop _ _ _ _ _)) as [[i' hl'] hu'].
    rewrite calls_ret. now rewrite app_nil_r.
  - rewrite calls_bind. now destruct (value (Validate validator password)).
Qed.

(* ================================================================= *)
(** ** Chains *)

(** A chain accepts when its base does and every decorator's own
    predicate holds. *)
Lemma accepts_chain (ds : list Decorator) (base : PasswordValidator)
    (password : string_view) :
  accepts (chain ds base) password
  = accepts base password
    && forallb (fun d => Spec.localCheck d password) ds.
Proof.
  induction ds as [| d ds IH]; simpl.
  - now rewrite andb_true_r.
  - rewrite accepts_decorate, IH.
    rewrite <- andb_assoc. f_equal. apply andb_comm.
Qed.

Lemma forallb_Permutation {A : Type} (f : A -> bool) (l1 l2 : list A) :
  Permutation l1 l2 -> forallb f l1 = forallb f l2.
Proof.
  induction 1 as [| x l1 l2 _ IH | x y l | l1 l2 l3 _ IH1 _ IH2]; simpl.
  - reflexivity.
  - now rewrite IH.
  - rewrite !andb_assoc. f_equal. apply andb_comm.
  - now rewrite IH1.
Qed.

Lemma localCheck_empty (d : Decorator) :
  checking d = true -> Spec.localCheck d EmptyString = false.
Proof. destruct d; simpl; [discriminate | reflexivity ..]. Qed.

Lemma forallb_filter_checking (password : string_view) (ds : list Decorator) :
  forallb (fun d => Spec.localCheck d password) ds
  = forallb (fun d => Spec.localCheck d password) (filter checking ds).
Proof.
  induction ds as [| d ds IH]; simpl; [reflexivity |].
  destruct d; simpl; now rewrite IH.
Qed.

Lemma forallb_localCheck_empty (ds : list Decorator) :
  existsb checking ds = true ->
  forallb (fun d => Spec.localCheck d EmptyString) ds = false.
Proof.
  induction ds as [| d ds IH]; simpl; [discriminate |].
  destruct (checking d) eqn:E; simpl.
  - intros _. now rewrite (localCheck_empty _ E).
  - intros H. rewrite (IH H). apply andb_false_r.
Qed.

(* ----------------------------------------------------------------- *)
(** *** [LengthValidator] *)

Lemma to_unsigned_int_small (z : Z) :
  (0 <= z <= UINT_MAX)%Z -> to_unsigned_int z = z.
Proof.
  unfold UINT_MAX, to_unsigned_int. intros H. apply Z.mod_small. lia.
Qed.

Lemma accepts_LengthValidator (min_length : Z) (password : string_view) :
  accepts (LengthValidator min_length) password = true
  <-> (to_unsigned_int min_length <= Z.of_nat (String.length password))%Z.
Proof.
  unfold accepts. cbn [Validate LengthValidator].
  rewrite value_bind, value_call, value_ret. apply Z.geb_le.
Qed.

(** A constructor argument outside [unsigned int] is reduced on
    conversion: [LengthValidator] of it is [LengthValidator] of the
    reduced value. *)
Lemma LengthValidator_conversion (min_length : Z) (password : string_view) :
  Validate (LengthValidator min_length) password
  = Validate (LengthValidator (to_unsigned_int min_length)) password.
Proof.
  cbn [Validate LengthValidator]. unfold to_unsigned_int.
  now rewrite Z.mod_mod by (unfold UINT_WIDTH; lia).
Qed.

(* ----------------------------------------------------------------- *)
(** *** The set of symbols *)

Lemma symbol_In (c : ascii) : Spec.symbol c = true <-> In c Spec.symbols.
Proof.
  unfold Spec.symbol. rewrite existsb_exists. split.
  - intros [d [Hd E]]. apply Ascii.eqb_eq in E. now subst.
  - intros H. exists c. split; [exact H | apply Ascii.eqb_refl].
Qed.

Lemma symbols_NoDup : NoDup Spec.symbols.
Proof.
  assert (E : nodup ascii_dec Spec.symbols = Spec.symbols) by reflexivity.
  rewrite <- E. apply NoDup_nodup.
Qed.

(* ================================================================= *)
(** ** The contracts of the four rules *)

(** C3.  [LengthValidator(min)] accepts a password exactly when the
    number of its characters (bytes) is at least [min], for every [min]
    of the constructor's parameter type [unsigned int]; a password of
    exactly [min] characters is accepted, and [LengthValidator(0)]
    accepts every password, the empty one included. *)
Theorem LengthValidator_contract (min_length : Z) (password : string_view) :
  (0 <= min_length <= UINT_MAX)%Z ->
  (accepts (LengthValidator min_length) password = true
   <-> (Z.of_nat (String.length password) >= min_length)%Z)
  /\ (Z.of_nat (String.length password) = min_length ->
      accepts (LengthValidator min_length) password = true)
  /\ accepts (LengthValidator 0) password = true
  /\ accepts (LengthValidator 0) "" = true.
Proof.
  intros Hmin.
  assert (Hiff : forall p,
             accepts (LengthValidator min_length) p = true
             <-> (Z.of_nat (String.length p) >= min_length)%Z).
  { intros p. rewrite accepts_LengthValidator, (to_unsigned_int_small _ Hmin).
    lia. }
  assert (Hzero : forall p, accepts (LengthValidator 0) p = true).
  { intros p. apply accepts_LengthValidator.
    rewrite to_unsigned_int_small by (unfold UINT_MAX; simpl; lia). lia. }
  split; [apply Hiff | split; [| split; apply Hzero]].
  intros E. apply Hiff. lia.
Qed.

Lemma LengthValidator_contract_witness :
  (0 <= 8 <= UINT_MAX)%Z
  /\ (accepts (LengthValidator 8) "abc123!@" = true
      <-> (Z.of_nat (String.length "abc123!@") >= 8)%Z)
  /\ (Z.of_nat (String.length "abc123!@") = 8%Z ->
      accepts (LengthValidator 8) "abc123!@" = true)
  /\ accepts (LengthValidator 0) "abc123!@" = true
  /\ accepts (LengthValidator 0) "" = true.
Proof.
  assert (H : (0 <= 8 <= UINT_MAX)%Z) by (unfold UINT_MAX; simpl; lia).
  split; [exact H | exact (LengthValidator_contract 8 "abc123!@" H)].
Defined.

(** C4.  [DigitPasswordValidator(V)] accepts a password exactly when [V]
    accepts it and it contains a character in 0-9; [V] runs first, and
    the search for a digit is made only when [V] has accepted. *)
Theorem DigitPasswordValidator_contract (validator : PasswordValidator)
    (password : string_view) :
  (accepts (DigitPasswordValidator validator) password = true
   <-> accepts validator password = true
       /\ Spec.contains Spec.digit password)
  /\ observed (DigitPasswordValidator validator) password
     = observed validator password
       ++ (if accepts validator password
           then [find_first_of_call "0123456789"] else []).
Proof.
  split.
  - rewrite accepts_Digit, andb_true_iff, containsb_contains. reflexivity.
  - apply (observed_decorate Digit).
Qed.

(** C2.  [SymbolPasswordValidator(V)] accepts a password exactly when
    [V] accepts it and it contains one of the characters of the literal
    [!@#$%^&*(){}[]?<>], which are the 17 distinct symbols of the
    specification; [_], [+], [~], [-] and [=] are not among them, and a
    password made of characters outside the set is rejected. *)
Theorem SymbolPasswordValidator_contract (validator : PasswordValidator)
    (password : string_view) :
  (accepts (SymbolPasswordValidator validator) password = true
   <-> accepts validator password = true
       /\ exists c, In c (Spec.chars_of password) /\ In c Spec.symbols)
  /\ Spec.chars_of "!@#$%^&*(){}[]?<>" = Spec.symbols
  /\ List.length Spec.symbols = 17
  /\ NoDup Spec.symbols
  /\ (forall c, In c ["_"; "+"; "~"; "-"; "="]%char -> ~ In c Spec.symbols)
  /\ ((forall c, In c (Spec.chars_of password) -> ~ In c Spec.symbols) ->
      accepts (SymbolPasswordValidator validator) password = false).
Proof.
  assert (Hiff : accepts (SymbolPasswordValidator validator) password = true
                 <-> accepts validator password = true
                     /\ exists c, In c (Spec.chars_of password)
                                  /\ In c Spec.symbols).
  { rewrite accepts_Symbol, andb_true_iff, containsb_contains.
    unfold Spec.contains. split; intros [Hv [c [Hc Hs]]];
      (split; [exact Hv | exists c; split; [exact Hc | now apply symbol_In]]). }
  split; [exact Hiff |]. split; [reflexivity |]. split; [reflexivity |].
  split; [exact symbols_NoDup |]. split.
  - intros c Hc Hs. apply symbol_In in Hs.
    simpl in Hc. decompose [or] Hc; subst; try discriminate Hs; assumption.
  - intros Hout. apply not_true_is_false. intros Hacc.
    apply Hiff in Hacc. destruct Hacc as [_ [c [Hc Hs]]].
    exact (Hout c Hc Hs).
Qed.

Lemma SymbolPasswordValidator_contract_witness :
  (forall c, In c (Spec.chars_of "hello_world+") -> ~ In c Spec.symbols)
  /\ accepts (SymbolPasswordValidator (LengthValidator 0)) "hello_world+"
     = false.
Proof.
  assert (H : forall c, In c (Spec.chars_of "hello_world+") ->
                        ~ In c Spec.symbols).
  { intros c Hc Hs. apply symbol_In in Hs.
    simpl in Hc. decompose [or] Hc; subst; try discriminate Hs; assumption. }
  split; [exact H |].
  exact (proj2 (proj2 (proj2 (proj2 (proj2
           (SymbolPasswordValidator_contract (LengthValidator 0)
              "hello_world+"))))) H).
Defined.

(** A character that is no letter changes neither flag of the loop,
    wherever it stands in the password. *)
Lemma case_flags_skip (p1 p2 : string_view) (c : ascii) :
  Spec.lowercase c = false -> Spec.uppercase c = false ->
  case_flags (p1 ++ String c p2)%string = case_flags (p1 ++ p2)%string.
Proof.
  intros Lc Uc. rewrite !case_flags_scan, !chars_of_app.
  apply scan_skip.
  - now rewrite islower_lowercase.
  - now rewrite isupper_uppercase.
Qed.

(** C1.  [CasePasswordValidator(V)] accepts a password exactly when [V]
    accepts it and it contains an ASCII lowercase letter and an ASCII
    uppercase letter.  A character that is no letter changes neither
    flag of the scan, and the answer is the same on any two passwords
    that agree on [V] and on whether a lowercase and an uppercase letter
    occur in them: where and how often they occur plays no part. *)
Theorem CasePasswordValidator_contract (validator : PasswordValidator)
    (password : string_view) :
  (accepts (CasePasswordValidator validator) password = true
   <-> accepts validator password = true
       /\ Spec.contains Spec.lowercase password
       /\ Spec.contains Spec.uppercase password)
  /\ (forall (p1 p2 : string_view) (c : ascii),
         Spec.lowercase c = false -> Spec.uppercase c = false ->
         case_flags (p1 ++ String c p2)%string = case_flags (p1 ++ p2)%string)
  /\ (forall other : string_view,
         accepts validator other = accepts validator password ->
         (Spec.contains Spec.lowercase other
          <-> Spec.contains Spec.lowercase password) ->
         (Spec.contains Spec.uppercase other
          <-> Spec.contains Spec.uppercase password) ->
         accepts (CasePasswordValidator validator) other
         = accepts (CasePasswordValidator validator) password).
Proof.
  assert (Hiff : forall p,
             accepts (CasePasswordValidator validator) p = true
             <-> accepts validator p = true
                 /\ Spec.contains Spec.lowercase p
                 /\ Spec.contains Spec.uppercase p).
  { intros p.
    now rewrite accepts_Case, !andb_true_iff, !containsb_contains. }
  split; [apply Hiff | split; [exact case_flags_skip |]].
  intros other Hv Hl Hu. apply eq_true_iff_eq.
  rewrite !Hiff, Hv, Hl, Hu. reflexivity.
Qed.

Lemma CasePasswordValidator_contract_witness :
  accepts (LengthValidator 0) "9zQ" = accepts (LengthValidator 0) "Abc123"
  /\ (Spec.contains Spec.lowercase "9zQ"
      <-> Spec.contains Spec.lowercase "Abc123")
  /\ (Spec.contains Spec.uppercase "9zQ"
      <-> Spec.contains Spec.uppercase "Abc123")
  /\ accepts (CasePasswordValidator (LengthValidator 0)) "9zQ"
     = accepts (CasePasswordValidator (LengthValidator 0)) "Abc123".
Proof.
  assert (Hv : accepts (LengthValidator 0) "9zQ"
               = accepts (LengthValidator 0) "Abc123") by reflexivity.
  assert (Hl : Spec.contains Spec.lowercase "9zQ"
               <-> Spec.contains Spec.lowercase "Abc123").
  { rewrite <- !containsb_contains. reflexivity. }
  assert (Hu : Spec.contains Spec.uppercase "9zQ"
               <-> Spec.contains Spec.uppercase "Abc123").
  { rewrite <- !containsb_contains. reflexivity. }
  split; [exact Hv | split; [exact Hl | split; [exact Hu |]]].
  exact (proj2 (proj2 (CasePasswordValidator_contract (LengthValidator 0)
                         "Abc123")) "9zQ"%string Hv Hl Hu).
Defined.

(* ================================================================= *)
(** ** Composition *)

(** C5.  A decorated validator returns the conjunction of the inner
    validator's answer and the decorator's own predicate: a digit
    occurs, a lowercase and an uppercase letter occur, a symbol occurs
    (and nothing for the bare [PasswordValidatorDecorator]). *)
Theorem decorator_conjunction (d : Decorator) (validator : PasswordValidator)
    (password : string_view) :
  accepts (decorate d validator) password
  = accepts validator password && Spec.localCheck d password.
Proof.
  destruct d; cbn [decorate].
  - rewrite accepts_Plain. symmetry. apply andb_true_r.
  - exact (accepts_Digit validator password).
  - exact (accepts_Case validator password).
  - exact (accepts_Symbol validator password).
Qed.

(** C6.  Two chains with the same decorators, in whatever order, over
    the same [LengthValidator] return the same boolean on every
    password. *)
Theorem chain_order_irrelevant (ds1 ds2 : list Decorator) (min_length : Z)
    (password : string_view) :
  Permutation ds1 ds2 ->
  accepts (chain ds1 (LengthValidator min_length)) password
  = accepts (chain ds2 (LengthValidator min_length)) password.
Proof.
  intros P. rewrite !accepts_chain. f_equal.
  now apply forallb_Permutation.
Qed.

Lemma chain_order_irrelevant_witness :
  Permutation [Symbol; Case; Digit] [Digit; Symbol; Case]
  /\ accepts (chain [Symbol; Case; Digit] (LengthValidator 8)) "Abc123!@#"
     = accepts (chain [Digit; Symbol; Case] (LengthValidator 8)) "Abc123!@#".
Proof.
  assert (P : Permutation [Symbol; Case; Digit] [Digit; Symbol; Case]).
  { apply perm_trans with [Symbol; Digit; Case].
    - apply perm_skip, perm_swap.
    - apply perm_swap. }
  split; [exact P |].
  exact (chain_order_irrelevant _ _ 8 "Abc123!@#" P).
Defined.

(** C7.  If a decorated validator accepts a password, so does the
    validator it wraps; and this stays so under any further decorators
    [outer]: taking a decorator out of a chain never turns an accepted
    password into a rejected one. *)
Theorem decorator_weakening (outer : list Decorator) (d : Decorator)
    (validator : PasswordValidator) (password : string_view) :
  accepts (chain outer (decorate d validator)) password = true ->
  accepts (chain outer validator) password = true.
Proof.
  rewrite !accepts_chain, accepts_decorate, !andb_true_iff.
  intros [[Hv _] Houter]. split; assumption.
Qed.

Lemma decorator_weakening_witness :
  accepts (chain [Symbol] (decorate Case
             (chain [Digit] (LengthValidator 8)))) "Abc123!@#" = true
  /\ accepts (chain [Symbol] (chain [Digit] (LengthValidator 8))) "Abc123!@#"
     = true.
Proof.
  assert (H : accepts (chain [Symbol] (decorate Case
                (chain [Digit] (LengthValidator 8)))) "Abc123!@#" = true)
    by reflexivity.
  split; [exact H |].
  exact (decorator_weakening [Symbol] Case
           (chain [Digit] (LengthValidator 8)) "Abc123!@#" H).
Defined.

(** C9.  A bare [PasswordValidatorDecorator] around [V] makes the calls
    of [V] and returns what [V] returns; under any decorator, and
    anywhere in a chain, it can be dropped without changing the
    answer. *)
Theorem PasswordValidatorDecorator_identity (validator : PasswordValidator)
    (password : string_view) :
  Validate (PasswordValidatorDecorator validator) password
  = Validate validator password
  /\ accepts (PasswordValidatorDecorator validator) password
     = accepts validator password
  /\ (forall d : Decorator,
         accepts (decorate d (PasswordValidatorDecorator validator)) password
         = accepts (decorate d validator) password)
  /\ (forall ds : list Decorator,
         accepts (chain ds validator) password
         = accepts (chain (filter checking ds) validator) password).
Proof.
  split; [reflexivity | split; [apply accepts_Plain | split]].
  - intros d. now rewrite !accepts_decorate, accepts_Plain.
  - intros ds. rewrite !accepts_chain. f_equal.
    apply forallb_filter_checking.
Qed.

(** C10.  Each of the three checking decorators rejects the empty
    password, whatever validator it wraps, and so does every chain that
    holds at least one of them, whatever its base. *)
Theorem decorators_reject_empty (validator : PasswordValidator) :
  accepts (DigitPasswordValidator validator) "" = false
  /\ accepts (CasePasswordValidator validator) "" = false
  /\ accepts (SymbolPasswordValidator validator) "" = false
  /\ (forall ds : list Decorator,
         existsb checking ds = true ->
         accepts (chain ds validator) "" = false).
Proof.
  split; [| split; [| split]].
  - rewrite accepts_Digit. apply andb_false_r.
  - rewrite accepts_Case. apply andb_false_r.
  - rewrite accepts_Symbol. apply andb_false_r.
  - intros ds H. rewrite accepts_chain, (forallb_localCheck_empty _ H).
    apply andb_false_r.
Qed.

Lemma decorators_reject_empty_witness :
  existsb checking [Plain; Case; Plain] = true
  /\ accepts (chain [Plain; Case; Plain] (LengthValidator 0)) "" = false.
Proof.
  assert (H : existsb checking [Plain; Case; Plain] = true) by reflexivity.
  split; [exact H |].
  exact (proj2 (proj2 (proj2 (decorators_reject_empty (LengthValidator 0))))
           [Plain; Case; Plain] H).
Defined.

(* ================================================================= *)
(** ** The scenarios *)

(** The eight assertions of [main] hold. *)
Lemma main_assertions :
  accepts (LengthValidator 8) "abc123!@#" = true
  /\ accepts (LengthValidator 8) "abc123" = false
  /\ accepts (chain [Digit] (LengthValidator 8)) "abc123!@#" = true
  /\ accepts (chain [Digit] (LengthValidator 8)) "abcde!@#" = false
  /\ accepts (chain [Case; Digit] (LengthValidator 8)) "Abc123!@#" = true
  /\ accepts (chain [Case; Digit] (LengthValidator 8)) "abc123!@#" = false
  /\ accepts (chain [Symbol; Case; Digit] (LengthValidator 8)) "Abc123!@#"
     = true
  /\ accepts (chain [Symbol; Case; Digit] (LengthValidator 8)) "Abc123567"
     = false.
Proof.
  split; [| split; [| split; [| split; [| split; [| split; [| split]]]]]];
    vm_compute; reflexivity.
Qed.

(** C8.  The end-to-end scenarios: the full chain over
    [LengthValidator(8)] accepts [Abc123!@#] and rejects [Abc123567];
    [LengthValidator(0)] accepts the empty password;
    [SymbolPasswordValidator] over [LengthValidator(0)] rejects
    [hello_world+] and accepts [hello?]. *)
Theorem end_to_end_scenarios :
  accepts (SymbolPasswordValidator (CasePasswordValidator
             (DigitPasswordValidator (LengthValidator 8)))) "Abc123!@#"
  = true
  /\ accepts (SymbolPasswordValidator (CasePasswordValidator
                (DigitPasswordValidator (LengthValidator 8)))) "Abc123567"
     = false
  /\ accepts (LengthValidator 0) "" = true
  /\ accepts (SymbolPasswordValidator (LengthValidator 0)) "hello_world+"
     = false
  /\ accepts (SymbolPasswordValidator (LengthValidator 0)) "hello?" = true.
Proof.
  split; [| split; [| split; [| split]]]; vm_compute; reflexivity.
Qed.

(* ================================================================= *)
(** ** The scan of [CasePasswordValidator]: bounds, reads and early exit *)

(** One unfolding of the loop, on calls. *)
Lemma calls_for_loop_unfold (fuel : nat) (password : string_view) (i : nat)
    (has_lower has_upper : bool) :
  calls (for_loop fuel password i has_lower has_upper)
  = length_call ::
    (if (i <? String.length password) && negb (has_upper && has_lower) then
       match fuel with
       | O => []
       | S fuel' =>
           islower_call (subscript password i) ::
           (if islower (subscript password i)
            then calls (for_loop fuel' password (S i) true has_upper)
            else
              isupper_call (subscript password i) ::
              (if isupper (subscript password i)
               then calls (for_loop fuel' password (S i) has_lower true)
               else calls (for_loop fuel' password (S i) has_lower has_upper)))
       end
     else []).
Proof.
  destruct fuel as [| fuel']; cbn [for_loop];
    rewrite calls_bind, calls_call, value_call; cbn [app]; f_equal.
  - now destruct (_ && _).
  - destruct (_ && _); [| reflexivity].
    rewrite calls_bind, calls_call, value_call. cbn [app]. f_equal.
    destruct (islower _); [reflexivity |].
    rewrite calls_bind, calls_call, value_call. cbn [app]. f_equal.
    now destruct (isupper _).
Qed.

(** The loop makes the calls of [scan_calls] on the characters from [i]
    onwards. *)
Lemma calls_for_loop (fuel : nat) (password : string_view) (i : nat)
    (has_lower has_upper : bool) :
  String.length password - i <= fuel ->
  calls (for_loop fuel password i has_lower has_upper)
  = scan_calls (skipn i (Spec.chars_of password)) has_lower has_upper.
Proof.
  revert i has_lower has_upper.
  induction fuel as [| fuel' IH]; intros i hl hu Hfuel;
    rewrite calls_for_loop_unfold;
    destruct (i <? String.length password) eqn:L.
  - apply Nat.ltb_lt in L. lia.
  - apply Nat.ltb_ge in L.
    rewrite skipn_all2 by (rewrite length_chars_of; exact L). reflexivity.
  - apply Nat.ltb_lt in L. rewrite (skipn_subscript _ _ L).
    assert (Hnext : String.length password - S i <= fuel') by lia.
    cbn [andb scan_calls]. f_equal.
    destruct (hu && hl); cbn [negb]; [reflexivity |]. f_equal.
    destruct (islower _); [now apply IH |]. f_equal.
    destruct (isupper _); now apply IH.
  - apply Nat.ltb_ge in L.
    rewrite skipn_all2 by (rewrite length_chars_of; exact L). reflexivity.
Qed.

Lemma own_calls_Case (password : string_view) :
  own_calls Case password
  = scan_calls (Spec.chars_of password) false false.
Proof.
  cbn [own_calls].
  rewrite (calls_for_loop (String.length password) password 0) by lia.
  reflexivity.
Qed.

(** The index never passes the end of the password. *)
Lemma for_loop_index (fuel : nat) (password : string_view) (i : nat)
    (has_lower has_upper : bool) :
  i <= String.length password ->
  i <= fst (fst (value (for_loop fuel password i has_lower has_upper)))
    <= String.length password.
Proof.
  revert i has_lower has_upper.
  induction fuel as [| fuel' IH]; intros i hl hu Hi;
    rewrite value_for_loop;
    destruct ((i <? String.length password) && negb (hu && hl)) eqn:G;
    cbn [fst]; try lia.
  apply andb_true_iff in G. destruct G as [G _]. apply Nat.ltb_lt in G.
  assert (Hnext : S i <= String.length password) by lia.
  destruct (islower _); [| destruct (isupper _)];
    match goal with
    | |- _ <= fst (fst (value (for_loop _ _ _ ?a ?b))) <= _ =>
        specialize (IH (S i) a b Hnext); lia
    end.
Qed.

(** Each flag is exact whatever the early exit: at the end of [scan] a
    flag is up exactly when it was up before or a letter of its case
    remained. *)
Lemma scan_exact (l : list ascii) (has_lower has_upper : bool) :
  scan l has_lower has_upper
  = (has_lower || existsb islower l, has_upper || existsb isupper l).
Proof.
  revert has_lower has_upper.
  induction l as [| c l IH]; intros hl hu; simpl.
  - now rewrite !orb_false_r.
  - destruct (hu && hl) eqn:B.
    + apply andb_true_iff in B. destruct B as [-> ->]. reflexivity.
    + destruct (islower c) eqn:Lc.
      * rewrite IH, (islower_not_isupper _ Lc). simpl.
        now rewrite orb_true_r.
      * destruct (isupper c) eqn:Uc; rewrite IH; simpl;
          now rewrite ?orb_true_r.
Qed.

Lemma scan_calls_reads (l : list ascii) (has_lower has_upper : bool)
    (c : ascii) :
  In (islower_call c) (scan_calls l has_lower has_upper)
  \/ In (isupper_call c) (scan_calls l has_lower has_upper) ->
  In c l.
Proof.
  revert has_lower has_upper.
  induction l as [| d l IH]; intros hl hu; cbn [scan_calls].
  - intros [[H | []] | [H | []]]; discriminate H.
  - destruct (hu && hl).
    + intros [[H | []] | [H | []]]; discriminate H.
    + destruct (islower d); [| destruct (isupper d)]; simpl;
        intros H; decompose [or] H; clear H;
        try discriminate;
        try (match goal with E : _ _ = _ _ |- _ => injection E as -> end;
             now left);
        right; eapply IH; eauto.
Qed.


Lemma scan_calls_stop (l1 l2 : list ascii) (has_lower has_upper : bool) :
  scan l1 has_lower has_upper = (true, true) ->
  scan_calls (l1 ++ l2) has_lower has_upper
  = scan_calls l1 has_lower has_upper.
Proof.
  revert has_lower has_upper.
  induction l1 as [| c l1 IH]; intros hl hu; cbn [scan scan_calls app].
  - intros [= -> ->]. now destruct l2.
  - destruct (hu && hl); [reflexivity |].
    destruct (islower c); [| destruct (isupper c)];
      intros H; now rewrite (IH _ _ H).
Qed.

Lemma scan_calls_length (l : list ascii) (has_lower has_upper : bool) :
  List.length (scan_calls l has_lower has_upper) <= 3 * List.length l + 1.
Proof.
  revert has_lower has_upper.
  induction l as [| c l IH]; intros hl hu; cbn [scan_calls List.length].
  - lia.
  - destruct (hu && hl); cbn [List.length]; [lia |].
    destruct (islower c); [| destruct (isupper c)]; cbn [List.length];
      match goal with
      | |- context [scan_calls l ?a ?b] => specialize (IH a b); lia
      end.
Qed.

(** X1.  The early exit of the loop loses nothing: at the exit
    [has_lower] tells exactly whether the password holds a lowercase
    letter, and [has_upper] whether it holds an uppercase letter. *)
Theorem case_flags_exact (password : string_view) :
  case_flags password
  = (Spec.containsb Spec.lowercase password,
     Spec.containsb Spec.uppercase password).
Proof.
  rewrite case_flags_scan, scan_exact. unfold Spec.containsb. simpl.
  now rewrite (existsb_pointwise _ _ _ islower_lowercase),
              (existsb_pointwise _ _ _ isupper_uppercase).
Qed.

(** X2.  The loop of [CasePasswordValidator::Validate] ends by its own
    condition with the index inside the password: at the exit [i] is at
    most [password.length()], and either the whole password was read or
    both flags are up. *)
Theorem case_scan_within_bounds (password : string_view) :
  let '(i, has_lower, has_upper) :=
    value (for_loop (String.length password) password 0 false false) in
  i <= String.length password
  /\ (i = String.length password \/ (has_lower = true /\ has_upper = true)).
Proof.
  pose proof (for_loop_exit (String.length password) password 0 false false)
    as Hexit.
  pose proof (for_loop_index (String.length password) password 0 false false)
    as Hindex.
  destruct (value _) as [[i hl] hu]. cbn [fst] in Hindex.
  assert (G : (i <? String.length password) && negb (hu && hl) = false)
    by (apply Hexit; lia).
  split; [lia |].
  apply andb_false_iff in G. destruct G as [G | G].
  - apply Nat.ltb_ge in G. left. lia.
  - right. apply negb_false_iff, andb_true_iff in G. tauto.
Qed.

(** X3.  The scan classifies characters of the password only: every
    argument of a call of [islower] or [isupper] is a character that
    occurs in the password. *)
Theorem case_scan_reads_password (password : string_view) (c : ascii) :
  In (islower_call c) (own_calls Case password)
  \/ In (isupper_call c) (own_calls Case password) ->
  In c (Spec.chars_of password).
Proof. rewrite own_calls_Case. apply scan_calls_reads. Qed.

Lemma case_scan_reads_password_witness :
  (In (islower_call "b") (own_calls Case "Ab1")
   \/ In (isupper_call "b") (own_calls Case "Ab1"))
  /\ In "b"%char (Spec.chars_of "Ab1").
Proof.
  assert (H : In (islower_call "b") (own_calls Case "Ab1")
              \/ In (isupper_call "b") (own_calls Case "Ab1")).
  { left. vm_compute. tauto. }
  split; [exact H | exact (case_scan_reads_password "Ab1" "b" H)].
Defined.



(** X5.  Once a lowercase and an uppercase letter have been met the scan
    stops: when both flags are up on [p1], the scan of [p1] followed by
    any [p2] makes the calls of the scan of [p1] and no other. *)
Theorem case_scan_stops_early (p1 p2 : string_view) :
  case_flags p1 = (true, true) ->
  own_calls Case (p1 ++ p2)%string = own_calls Case p1.
Proof.
  intros H. rewrite !own_calls_Case, chars_of_app.
  apply scan_calls_stop. now rewrite <- case_flags_scan.
Qed.

Lemma case_scan_stops_early_witness :
  case_flags "1aB" = (true, true)
  /\ own_calls Case ("1aB" ++ "c2D")%string = own_calls Case "1aB".
Proof.
  assert (H : case_flags "1aB" = (true, true)) by reflexivity.
  split; [exact H | exact (case_scan_stops_early "1aB" "c2D" H)].
Defined.

(** X6.  The scan is linear in the password: it makes at most three
    calls for each character and one more. *)
Theorem case_scan_linear (password : string_view) :
  List.length (own_calls Case password) <= 3 * String.length password + 1.
Proof.
  rewrite own_calls_Case, <- length_chars_of. apply scan_calls_length.
Qed.

(* ================================================================= *)
(** ** Chains: order of evaluation *)

Lemma chain_app (outer inner : list Decorator) (base : PasswordValidator) :
  chain (outer ++ inner) base = chain outer (chain inner base).
Proof. unfold chain. apply fold_right_app. Qed.

Lemma accepts_decorate_inner (d : Decorator) (validator : PasswordValidator)
    (password : string_view) :
  accepts (decorate d validator) password = true ->
  accepts validator password = true.
Proof. rewrite accepts_decorate, andb_true_iff. tauto. Qed.

(** X7.  A rejection ends the evaluation of a chain: when a validator
    rejects a password, every chain of decorators around it makes the
    calls of that validator and no call of its own. *)
Theorem chain_stops_at_rejection (outer : list Decorator)
    (validator : PasswordValidator) (password : string_view) :
  accepts validator password = false ->
  observed (chain outer validator) password = observed validator password.
Proof.
  intros Hrej. induction outer as [| d outer IH]; [reflexivity |].
  cbn [chain fold_right]. fold (chain outer validator).
  rewrite observed_decorate, IH, accepts_chain, Hrej. cbn [andb].
  apply app_nil_r.
Qed.

Lemma chain_stops_at_rejection_witness :
  accepts (DigitPasswordValidator (LengthValidator 8)) "abcde!@#" = false
  /\ observed (chain [Symbol; Case]
                 (DigitPasswordValidator (LengthValidator 8))) "abcde!@#"
     = observed (DigitPasswordValidator (LengthValidator 8)) "abcde!@#".
Proof.
  assert (H : accepts (DigitPasswordValidator (LengthValidator 8)) "abcde!@#"
              = false) by reflexivity.
  split; [exact H |].
  exact (chain_stops_at_rejection [Symbol; Case]
           (DigitPasswordValidator (LengthValidator 8)) "abcde!@#" H).
Defined.

(** X8.  A chain that accepts has run every check, from the base
    outwards: its calls are those of the base followed by the calls of
    each decorator's own check, the innermost decorator first. *)
Theorem chain_calls_when_accepted (ds : list Decorator)
    (base : PasswordValidator) (password : string_view) :
  accepts (chain ds base) password = true ->
  observed (chain ds base) password
  = observed base password
    ++ List.concat (map (fun d => own_calls d password) (rev ds)).
Proof.
  induction ds as [| d ds IH]; cbn [chain fold_right rev map List.concat].
  - intros _. now rewrite app_nil_r.
  - fold (chain ds base). intros Hacc.
    pose proof (accepts_decorate_inner _ _ _ Hacc) as Hinner.
    rewrite observed_decorate, Hinner, (IH Hinner).
    rewrite map_app, concat_app. cbn [map List.concat].
    now rewrite app_nil_r, app_assoc.
Qed.

Lemma chain_calls_when_accepted_witness :
  accepts (chain [Symbol; Digit] (LengthValidator 3)) "a1?" = true
  /\ observed (chain [Symbol; Digit] (LengthValidator 3)) "a1?"
     = observed (LengthValidator 3) "a1?"
       ++ List.concat (map (fun d => own_calls d "a1?") (rev [Symbol; Digit])).
Proof.
  assert (H : accepts (chain [Symbol; Digit] (LengthValidator 3)) "a1?"
              = true) by reflexivity.
  split; [exact H |].
  exact (chain_calls_when_accepted [Symbol; Digit] (LengthValidator 3)
           "a1?" H).
Defined.

(* ================================================================= *)
(** ** Chains: what the answer depends on *)

Lemma forallb_same_elements {A : Type} (f : A -> bool) (l1 l2 : list A) :
  (forall a, In a l1 <-> In a l2) -> forallb f l1 = forallb f l2.
Proof.
  intros H. apply eq_true_iff_eq. rewrite !forallb_forall.
  split; intros Hall a Ha; apply Hall, H, Ha.
Qed.

(** X9.  Only the set of decorators counts: two chains over the same
    validator whose lists of decorators have the same members, in
    whatever order and however often repeated, return the same boolean. *)
Theorem chain_same_decorators (ds1 ds2 : list Decorator)
    (base : PasswordValidator) (password : string_view) :
  (forall d, In d ds1 <-> In d ds2) ->
  accepts (chain ds1 base) password = accepts (chain ds2 base) password.
Proof.
  intros H. rewrite !accepts_chain. f_equal.
  now apply forallb_same_elements.
Qed.

Lemma chain_same_decorators_witness :
  (forall d, In d [Digit; Case; Digit] <-> In d [Case; Case; Digit])
  /\ accepts (chain [Digit; Case; Digit] (LengthValidator 8)) "Abc123!@#"
     = accepts (chain [Case; Case; Digit] (LengthValidator 8)) "Abc123!@#".
Proof.
  assert (H : forall d, In d [Digit; Case; Digit] <-> In d [Case; Case; Digit])
    by (intros d; simpl; tauto).
  split; [exact H |].
  exact (chain_same_decorators _ _ (LengthValidator 8) "Abc123!@#" H).
Defined.

Lemma existsb_Permutation {A : Type} (f : A -> bool) (l1 l2 : list A) :
  Permutation l1 l2 -> existsb f l1 = existsb f l2.
Proof.
  induction 1 as [| x l1 l2 _ IH | x y l | l1 l2 l3 _ IH1 _ IH2]; simpl.
  - reflexivity.
  - now rewrite IH.
  - rewrite !orb_assoc. f_equal. apply orb_comm.
  - now rewrite IH1.
Qed.

Lemma localCheck_Permutation (d : Decorator) (p q : string_view) :
  Permutation (Spec.chars_of p) (Spec.chars_of q) ->
  Spec.localCheck d p = Spec.localCheck d q.
Proof.
  intros H. destruct d; cbn [Spec.localCheck]; unfold Spec.containsb;
    try reflexivity; now rewrite !(existsb_Permutation _ _ _ H).
Qed.

Lemma accepts_LengthValidator_length (min_length : Z) (p q : string_view) :
  String.length p <= String.length q ->
  accepts (LengthValidator min_length) p = true ->
  accepts (LengthValidator min_length) q = true.
Proof. rewrite !accepts_LengthValidator. lia. Qed.

(** X10.  No rule looks at positions: a chain over a [LengthValidator]
    returns the same boolean on two passwords made of the same
    characters in a different order. *)
Theorem chain_password_order_irrelevant (ds : list Decorator) (min_length : Z)
    (p q : string_view) :
  Permutation (Spec.chars_of p) (Spec.chars_of q) ->
  accepts (chain ds (LengthValidator min_length)) p
  = accepts (chain ds (LengthValidator min_length)) q.
Proof.
  intros H. rewrite !accepts_chain. f_equal.
  - pose proof (Permutation_length H) as L. rewrite !length_chars_of in L.
    apply eq_true_iff_eq.
    split; apply accepts_LengthValidator_length; lia.
  - apply eq_true_iff_eq. rewrite !forallb_forall.
    split; intros Hall d Hd;
      [rewrite <- (localCheck_Permutation d _ _ H)
      | rewrite (localCheck_Permutation d _ _ H)]; now apply Hall.
Qed.

Lemma chain_password_order_irrelevant_witness :
  Permutation (Spec.chars_of "Abc123!@#") (Spec.chars_of "#@!321cbA")
  /\ accepts (chain [Symbol; Case; Digit] (LengthValidator 8)) "Abc123!@#"
     = accepts (chain [Symbol; Case; Digit] (LengthValidator 8)) "#@!321cbA".
Proof.
  assert (H : Permutation (Spec.chars_of "Abc123!@#")
                          (Spec.chars_of "#@!321cbA"))
    by (exact (Permutation_rev (Spec.chars_of "Abc123!@#"))).
  split; [exact H |].
  exact (chain_password_order_irrelevant [Symbol; Case; Digit] 8
           "Abc123!@#" "#@!321cbA" H).
Defined.

Lemma localCheck_extension (d : Decorator) (before p after : string_view) :
  Spec.localCheck d p = true ->
  Spec.localCheck d (before ++ p ++ after)%string = true.
Proof.
  assert (E : forall P, Spec.containsb P p = true ->
                        Spec.containsb P (before ++ p ++ after)%string = true).
  { intros P H. unfold Spec.containsb in *.
    rewrite !chars_of_app, !existsb_app, H. now rewrite orb_true_r. }
  destruct d; cbn [Spec.localCheck]; auto.
  rewrite !andb_true_iff. intros [Hl Hu]. auto.
Qed.

(** X11.  Adding characters never costs acceptance: a password that a
    chain over a [LengthValidator] accepts is still accepted with any
    characters put before and after it. *)
Theorem chain_accepts_extension (ds : list Decorator) (min_length : Z)
    (before p after : string_view) :
  accepts (chain ds (LengthValidator min_length)) p = true ->
  accepts (chain ds (LengthValidator min_length))
          (before ++ p ++ after)%string = true.
Proof.
  rewrite !accepts_chain, !andb_true_iff, !forallb_forall.
  intros [Hlen Hall]. split.
  - apply (accepts_LengthValidator_length _ p); [| exact Hlen].
    rewrite <- !length_chars_of, !chars_of_app, !length_app. lia.
  - intros d Hd. apply localCheck_extension, Hall, Hd.
Qed.

Lemma chain_accepts_extension_witness :
  accepts (chain [Symbol; Case; Digit] (LengthValidator 8)) "Abc123!@#" = true
  /\ accepts (chain [Symbol; Case; Digit] (LengthValidator 8))
             ("xy_" ++ "Abc123!@#" ++ " z")%string = true.
Proof.
  assert (H : accepts (chain [Symbol; Case; Digit] (LengthValidator 8))
                      "Abc123!@#" = true) by reflexivity.
  split; [exact H |].
  exact (chain_accepts_extension [Symbol; Case; Digit] 8
           "xy_" "Abc123!@#" " z" H).
Defined.

(* ================================================================= *)
(** ** The policy [main] builds *)

(** No character belongs to two of the four classes. *)
Lemma classes_disjoint (c : ascii) :
  Nat.b2n (Spec.digit c) + Nat.b2n (Spec.lowercase c)
  + Nat.b2n (Spec.uppercase c) + Nat.b2n (Spec.symbol c) <= 1.
Proof.
  destruct c as [[] [] [] [] [] [] [] []]; vm_compute; repeat constructor.
Qed.

Lemma forallb_In_localCheck (ds : list Decorator) (d : Decorator)
    (password : string_view) :
  In d ds ->
  forallb (fun d => Spec.localCheck d password) ds = true ->
  Spec.localCheck d password = true.
Proof. intros Hd Hall. rewrite forallb_forall in Hall. now apply Hall. Qed.

(** X12.  The validator of the last block of [main], the three checking
    decorators over [LengthValidator(n)], accepts a password exactly
    when it has at least [n] characters and holds a digit, a lowercase
    letter, an uppercase letter and a symbol. *)
Theorem full_policy (n : Z) (password : string_view) :
  (0 <= n <= UINT_MAX)%Z ->
  accepts (SymbolPasswordValidator (CasePasswordValidator
             (DigitPasswordValidator (LengthValidator n)))) password = true
  <-> (n <= Z.of_nat (String.length password))%Z
      /\ Spec.contains Spec.digit password
      /\ Spec.contains Spec.lowercase password
      /\ Spec.contains Spec.uppercase password
      /\ Spec.contains Spec.symbol password.
Proof.
  intros Hn.
  rewrite accepts_Symbol, accepts_Case, accepts_Digit, !andb_true_iff,
    !containsb_contains, accepts_LengthValidator,
    (to_unsigned_int_small _ Hn).
  tauto.
Qed.

Lemma full_policy_witness :
  (0 <= 8 <= UINT_MAX)%Z
  /\ (accepts (SymbolPasswordValidator (CasePasswordValidator
                 (DigitPasswordValidator (LengthValidator 8)))) "Abc123!@#"
      = true
      <-> (8 <= Z.of_nat (String.length "Abc123!@#"))%Z
          /\ Spec.contains Spec.digit "Abc123!@#"
          /\ Spec.contains Spec.lowercase "Abc123!@#"
          /\ Spec.contains Spec.uppercase "Abc123!@#"
          /\ Spec.contains Spec.symbol "Abc123!@#").
Proof.
  assert (H : (0 <= 8 <= UINT_MAX)%Z) by (unfold UINT_MAX; simpl; lia).
  split; [exact H | exact (full_policy 8 "Abc123!@#" H)].
Defined.

(** X13.  Whatever the minimum length asked for, a chain that holds the
    three checking decorators accepts no password of fewer than four
    characters: the digit, the lowercase letter, the uppercase letter
    and the symbol it needs are four different characters. *)
Theorem three_checks_need_four_characters (ds : list Decorator)
    (base : PasswordValidator) (password : string_view) :
  In Digit ds -> In Case ds -> In Symbol ds ->
  accepts (chain ds base) password = true ->
  4 <= String.length password.
Proof.
  intros HD HC HS Hacc.
  rewrite accepts_chain, andb_true_iff in Hacc. destruct Hacc as [_ Hall].
  pose proof (forallb_In_localCheck _ _ _ HD Hall) as Hd.
  pose proof (forallb_In_localCheck _ _ _ HC Hall) as Hc.
  pose proof (forallb_In_localCheck _ _ _ HS Hall) as Hs.
  cbn [Spec.localCheck] in Hd, Hc, Hs.
  apply andb_true_iff in Hc. destruct Hc as [Hl Hu].
  apply containsb_contains in Hd, Hl, Hu, Hs.
  destruct Hd as [cd [Id Pd]]. destruct Hl as [cl [Il Pl]].
  destruct Hu as [cu [Iu Pu]]. destruct Hs as [cs [Is Ps]].
  rewrite <- length_chars_of.
  change 4 with (List.length [cd; cl; cu; cs]).
  apply NoDup_incl_length.
  - assert (Hne : forall (c c' : ascii) (P Q : ascii -> bool),
               P c = true -> Q c' = true ->
               (forall x, Nat.b2n (P x) + Nat.b2n (Q x) <= 1) -> c <> c').
    { intros c c' P Q HP HQ Hdis ->. specialize (Hdis c').
      rewrite HP, HQ in Hdis. simpl in Hdis. lia. }
    assert (D : forall x, Nat.b2n (Spec.digit x) + Nat.b2n (Spec.lowercase x)
                          + Nat.b2n (Spec.uppercase x)
                          + Nat.b2n (Spec.symbol x) <= 1)
      by exact classes_disjoint.
    repeat constructor; simpl; intros H; decompose [or] H; try assumption;
      match goal with
      | E : ?a = ?b |- _ => revert E
      end;
      [ apply (Hne _ _ Spec.lowercase Spec.digit Pl Pd)
      | apply (Hne _ _ Spec.uppercase Spec.digit Pu Pd)
      | apply (Hne _ _ Spec.symbol Spec.digit Ps Pd)
      | apply (Hne _ _ Spec.uppercase Spec.lowercase Pu Pl)
      | apply (Hne _ _ Spec.symbol Spec.lowercase Ps Pl)
      | apply (Hne _ _ Spec.symbol Spec.uppercase Ps Pu) ];
      intros x; specialize (D x); lia.
  - intros x Hx. simpl in Hx. decompose [or] Hx; subst; tauto.
Qed.

Lemma three_checks_need_four_characters_witness :
  In Digit [Symbol; Case; Digit] /\ In Case [Symbol; Case; Digit]
  /\ In Symbol [Symbol; Case; Digit]
  /\ accepts (chain [Symbol; Case; Digit] (LengthValidator 0)) "aB1?" = true
  /\ 4 <= String.length "aB1?".
Proof.
  assert (HD : In Digit [Symbol; Case; Digit]) by (simpl; tauto).
  assert (HC : In Case [Symbol; Case; Digit]) by (simpl; tauto).
  assert (HS : In Symbol [Symbol; Case; Digit]) by (simpl; tauto).
  assert (H : accepts (chain [Symbol; Case; Digit] (LengthValidator 0)) "aB1?"
              = true) by reflexivity.
  split; [exact HD | split; [exact HC | split; [exact HS | split;
    [exact H |]]]].
  exact (three_checks_need_four_characters [Symbol; Case; Digit]
           (LengthValidator 0) "aB1?" HD HC HS H).
Defined.

(** X14.  A smaller minimum accepts more: what [LengthValidator(n)]
    accepts, [LengthValidator(m)] accepts for every [m <= n], both being
    values of [unsigned int]. *)
Theorem LengthValidator_monotone (m n : Z) (password : string_view) :
  (0 <= m <= n)%Z -> (n <= UINT_MAX)%Z ->
  accepts (LengthValidator n) password = true ->
  accepts (LengthValidator m) password = true.
Proof.
  intros Hm Hn. rewrite !accepts_LengthValidator.
  rewrite !to_unsigned_int_small by lia. lia.
Qed.

Lemma LengthValidator_monotone_witness :
  (0 <= 6 <= 8)%Z /\ (8 <= UINT_MAX)%Z
  /\ accepts (LengthValidator 8) "abc123!@#" = true
  /\ accepts (LengthValidator 6) "abc123!@#" = true.
Proof.
  assert (Hm : (0 <= 6 <= 8)%Z) by lia.
  assert (Hn : (8 <= UINT_MAX)%Z) by (unfold UINT_MAX; simpl; lia).
  assert (H : accepts (LengthValidator 8) "abc123!@#" = true) by reflexivity.
  split; [exact Hm | split; [exact Hn | split; [exact H |]]].
  exact (LengthValidator_monotone 6 8 "abc123!@#" Hm Hn H).
Defined.

(** X15.  [main] runs to its end: none of its eight assertions fails,
    and it returns 0. *)
Theorem main_returns_zero : main = Some 0%Z.
Proof.
  unfold main.
  repeat match goal with
         | |- and_then ?s _ = _ =>
             replace s with (Some tt) by (vm_compute; reflexivity);
             cbn [and_then]
         end.
  reflexivity.
Qed.
